(** * Item service: a shallow embedding of [main.py]

    The service keeps one table, [items], and answers five requests on it
    (create, list, read, update, delete).  The table is a finite map from
    the primary key to the remaining columns.  A request runs in a session:
    the handler reads the committed table, queues its writes, and [commit]
    flushes the queue to the store, which takes all of it or none; what is
    not committed when the session is closed is dropped. *)

From Stdlib Require Import ZArith PrimFloat.
From stdpp Require Import base option gmap strings list fin_maps sorting.

Local Open Scope string_scope.
Local Open Scope Z_scope.

(** ** Data model *)

(** [datetime] values are microseconds since the epoch. *)
Definition datetime : Type := Z.

(** The columns of [items] other than the primary key [id]. *)
Record Row : Type := mkRow {
  row_name : string;
  row_description : option string;
  row_price : float;
  row_created_at : datetime;
}.

(** [class ItemModel(Base)]: a row as the ORM hands it out, key included. *)
Record ItemModel : Type := mkItemModel {
  id : Z;
  name : string;
  description : option string;
  price : float;
  created_at : datetime;
}.

(** [class ItemCreate(BaseModel)] *)
Record ItemCreate : Type := mkItemCreate {
  create_name : string;
  create_description : option string;
  create_price : float;
}.

(** [class ItemUpdate(BaseModel)]: every field is [T | None = None]. *)
Record ItemUpdate : Type := mkItemUpdate {
  update_name : option string;
  update_description : option string;
  update_price : option float;
}.

(** [class ItemResponse(BaseModel)] *)
Record ItemResponse : Type := mkItemResponse {
  resp_id : Z;
  resp_name : string;
  resp_description : option string;
  resp_price : float;
  resp_created_at : datetime;
}.

(** [Config.from_attributes = True]: the response is read off the
    attributes of the ORM object, field by field. *)
Definition from_attributes (o : ItemModel) : ItemResponse :=
  {| resp_id := id o;
     resp_name := name o;
     resp_description := description o;
     resp_price := price o;
     resp_created_at := created_at o |}.

(** The rows of [items]: primary key to row. *)
Abbreviation Rows := (gmap Z Row).

(** The store is SQLite.  An [INTEGER] is a signed 64-bit integer: no row
    has a key outside that range, and the driver refuses to bind a Python
    integer outside it. *)
Definition min_int64 : Z := - 2 ^ 63.
Definition max_int64 : Z := 2 ^ 63 - 1.

Definition int64 (k : Z) : bool :=
  (min_int64 <=? k) && (k <=? max_int64).

Definition int64_keys (m : Rows) : Prop :=
  map_Forall (λ k _, int64 k = true) m.

(** The table [items]: rows under 64-bit keys. *)
Definition Table : Type := dsig int64_keys.

(** The table that has the rows [m], if their keys are 64-bit; [t]
    otherwise. *)
Definition checked (m : Rows) (t : Table) : Table :=
  match decide (int64_keys m) with
  | left H => dexist m H
  | right _ => t
  end.

(** Lookup, insertion, deletion and change of a row are those of the rows;
    an insertion under a key that is not 64-bit leaves the table as it
    is. *)
#[global] Instance table_lookup : Lookup Z Row Table := λ k t, `t !! k.
#[global] Instance table_empty : Empty Table := dexist ∅ (map_Forall_empty _).
#[global] Instance table_insert : Insert Z Row Table :=
  λ k r t, checked (<[k := r]> (`t)) t.
#[global] Instance table_delete : Delete Z Table :=
  λ k t, checked (delete k (`t)) t.
#[global] Instance table_alter : Alter Z Row Table :=
  λ f k t, checked (alter f k (`t)) t.
#[global] Instance table_size : Size Table := λ t, size (`t).

(** A row read from the table under key [k], as an ORM object. *)
Definition load (k : Z) (r : Row) : ItemModel :=
  {| id := k;
     name := row_name r;
     description := row_description r;
     price := row_price r;
     created_at := row_created_at r |}.

(** ** The store *)

(** A Python float as the [Float] column holds it: NaN is bound as NULL,
    a zero of either sign is held as zero, every other number is held as it
    is. *)
Definition sqlite_real (x : float) : option float :=
  if is_nan x then None
  else if is_zero x then Some zero
  else Some x.

(** Key allocation of an [Integer] primary key with [autoincrement=True]:
    one more than the largest key in use, 1 on an empty table; once the
    largest key is the largest integer the store draws keys at random and
    takes one that is free, [pick] being the key that search ends on. *)
Definition max_rowid (t : Table) : option Z :=
  map_fold (λ k _ acc, Some (from_option (Z.max k) k acc)) None (`t).

Definition new_rowid (pick : Z) (t : Table) : Z :=
  match max_rowid t with
  | None => 1
  | Some m => if m <? max_int64 then m + 1 else pick
  end.

(** A key the store can give to a new row: a 64-bit integer no row has.  A
    [pick] that is not such a key stands for a search that found none. *)
Definition rowid_free (k : Z) (t : Table) : bool :=
  int64 k && bool_decide (t !! k = None).

(** Rows come out of a scan of the table by ascending key. *)
Definition by_rowid : relation (Z * Row) := λ a b, a.1 ≤ b.1.

#[global] Instance by_rowid_dec : RelDecision by_rowid.
Proof. intros a b. unfold by_rowid. apply _. Defined.

Definition scan (t : Table) : list (Z * Row) :=
  merge_sort by_rowid (map_to_list (`t)).

(** ** Outcomes *)

(** What a request can raise.  [RequestValidationError] lists the offending
    parameters; [HTTPException] is the one the handlers raise themselves;
    [InvalidRequestError] is what [refresh] raises for an object whose row
    is gone; [OverflowError] is the driver refusing an integer that does
    not fit 64 bits; [IntegrityError] is a NULL for a column that is
    [nullable=False]; [OperationalError] is the store finding no key for a
    new row. *)
Inductive Exception : Type :=
| RequestValidationError (fields : list string)
| HTTPException (status_code : Z) (detail : string)
| InvalidRequestError
| OverflowError
| IntegrityError
| OperationalError.

Inductive Result (A : Type) : Type :=
| Return (a : A)
| Raise (e : Exception).
Arguments Return {A} a.
Arguments Raise {A} e.

(** ** The session *)

(** A write the session has queued for the next flush. *)
Inductive Write : Type :=
| InsertRow (k : Z) (r : Row)
| UpdateName (k : Z) (v : string)
| UpdateDescription (k : Z) (v : option string)
| UpdatePrice (k : Z) (v : float)
| DeleteRow (k : Z).

(** One statement on the table.  An INSERT needs a key the store can give
    and a price that is not NULL; an UPDATE of the price needs a price that
    is not NULL. *)
Definition apply_write (w : Write) (t : Table) : Result Table :=
  match w with
  | InsertRow k r =>
      if rowid_free k t then
        match sqlite_real (row_price r) with
        | Some p => Return (<[k := mkRow (row_name r) (row_description r) p
                                     (row_created_at r)]> t)
        | None => Raise IntegrityError
        end
      else Raise OperationalError
  | UpdateName k v =>
      Return (alter (λ r, mkRow v (row_description r) (row_price r)
                            (row_created_at r)) k t)
  | UpdateDescription k v =>
      Return (alter (λ r, mkRow (row_name r) v (row_price r)
                            (row_created_at r)) k t)
  | UpdatePrice k v =>
      match sqlite_real v with
      | Some p => Return (alter (λ r, mkRow (row_name r) (row_description r) p
                                        (row_created_at r)) k t)
      | None => Raise IntegrityError
      end
  | DeleteRow k => Return (delete k t)
  end.

(** The queued writes in order; the first that fails ends the flush. *)
Fixpoint flush (ws : list Write) (t : Table) : Result Table :=
  match ws with
  | [] => Return t
  | w :: ws =>
      match apply_write w t with
      | Return t' => flush ws t'
      | Raise e => Raise e
      end
  end.

(** [database] is the committed table, [pending] the writes queued since
    ([autoflush=False]: they reach the store at [commit] only). *)
Record Session : Type := mkSession {
  database : Table;
  pending : list Write;
}.

Definition SessionLocal (t : Table) : Session :=
  {| database := t; pending := [] |}.

(** Code that runs against a session and returns or raises. *)
Definition M (A : Type) : Type := Session → Result A * Session.

#[global] Instance M_ret : MRet M := λ A a s, (Return a, s).

#[global] Instance M_bind : MBind M := λ A B f m s,
  match m s with
  | (Return a, s') => f a s'
  | (Raise e, s') => (Raise e, s')
  end.

Definition raise {A} (e : Exception) : M A := λ s, (Raise e, s).

Definition queue (w : Write) (s : Session) : Session :=
  {| database := database s; pending := pending s ++ [w] |}.

(** [db.query(ItemModel).filter(ItemModel.id == item_id).first()]: the
    driver binds [item_id], then the store looks the row up. *)
Definition query_first (item_id : Z) : M (option ItemModel) :=
  λ s, if int64 item_id
       then (Return (load item_id <$> database s !! item_id), s)
       else (Raise OverflowError, s).

(** [db.query(ItemModel).all()] *)
Definition query_all : M (list ItemModel) :=
  λ s, (Return ((λ kr, load kr.1 kr.2) <$> scan (database s)), s).

(** [db.add(ItemModel(name=.., description=.., price=..))]: the INSERT is
    queued with the column default [created_at = utcnow()]; the result is
    the object with the key the flush will give it. *)
Definition add (nm : string) (descr : option string) (pr : float)
    (now : datetime) (pick : Z) : M ItemModel :=
  λ s, let k := new_rowid pick (database s) in
       let r := mkRow nm descr pr now in
       (Return (load k r), queue (InsertRow k r) s).

(** Attribute assignment on an object of the session: the object changes
    and the session queues the column write for its row. *)
Definition set_name (v : string) (o : ItemModel) : M ItemModel :=
  λ s, (Return (mkItemModel (id o) v (description o) (price o) (created_at o)),
        queue (UpdateName (id o) v) s).

Definition set_description (v : option string) (o : ItemModel) : M ItemModel :=
  λ s, (Return (mkItemModel (id o) (name o) v (price o) (created_at o)),
        queue (UpdateDescription (id o) v) s).

Definition set_price (v : float) (o : ItemModel) : M ItemModel :=
  λ s, (Return (mkItemModel (id o) (name o) (description o) v (created_at o)),
        queue (UpdatePrice (id o) v) s).

(** [db.delete(db_item)] *)
Definition delete_row (o : ItemModel) : M unit :=
  λ s, (Return (), queue (DeleteRow (id o)) s).

(** [db.commit()]: the queue is flushed; if the flush fails the transaction
    is rolled back and the error goes to the caller. *)
Definition commit : M unit :=
  λ s, match flush (pending s) (database s) with
       | Return t => (Return (), {| database := t; pending := [] |})
       | Raise e => (Raise e, {| database := database s; pending := [] |})
       end.

(** [db.refresh(db_item)]: the object is read again by its key. *)
Definition refresh (o : ItemModel) : M ItemModel :=
  λ s, match database s !! id o with
       | Some r => (Return (load (id o) r), s)
       | None => (Raise InvalidRequestError, s)
       end.

(** [get_db]: a fresh session on the table for the body, closed afterwards
    whatever the body did; closing drops what was not committed. *)
Definition get_db {A} (body : M A) (t : Table) : Result A * Table :=
  let '(r, s) := body (SessionLocal t) in (r, database s).

(** ** Request parameters *)

(** A parameter as the request carries it: not there, there but not of the
    declared type, or there with a value of that type. *)
Inductive Arg (A : Type) : Type :=
| Missing
| Malformed
| Given (v : A).
Arguments Missing {A}.
Arguments Malformed {A}.
Arguments Given {A} v.

(** A parameter without default. *)
Definition required {A} (a : Arg A) : option A :=
  match a with
  | Given v => Some v
  | Missing | Malformed => None
  end.

(** A parameter with default [d]. *)
Definition with_default {A} (d : A) (a : Arg A) : option A :=
  match a with
  | Given v => Some v
  | Missing => Some d
  | Malformed => None
  end.

Definition offending {A} (field : string) (v : option A) : list string :=
  match v with
  | Some _ => []
  | None => [field]
  end.

Definition arg_map {A B} (f : A → B) (a : Arg A) : Arg B :=
  match a with
  | Given v => Given (f v)
  | Missing => Missing
  | Malformed => Malformed
  end.

(** [get_item_create(name: str, price: float, description: str = None)] *)
Definition get_item_create (nm : Arg string) (pr : Arg float)
    (descr : Arg string) : Result ItemCreate :=
  match required nm, required pr, with_default None (arg_map Some descr) with
  | Some n, Some p, Some d => Return (mkItemCreate n d p)
  | n, p, d => Raise (RequestValidationError
                        (offending "name" n ++ offending "price" p
                         ++ offending "description" d))
  end.

(** [get_item_update(name: str | None = None, price: float | None = None,
    description: str | None = None)] *)
Definition get_item_update (nm : Arg (option string)) (pr : Arg (option float))
    (descr : Arg (option string)) : Result ItemUpdate :=
  match with_default None nm, with_default None pr, with_default None descr with
  | Some n, Some p, Some d => Return (mkItemUpdate n d p)
  | n, p, d => Raise (RequestValidationError
                        (offending "name" n ++ offending "price" p
                         ++ offending "description" d))
  end.

(** ** Handlers *)

(** [create_item]; [now] is what [datetime.utcnow] reads and [pick] what
    the store draws if it has to. *)
Definition create_item (now : datetime) (pick : Z) (item : ItemCreate)
    : M ItemModel :=
  db_item ← add (create_name item) (create_description item)
                (create_price item) now pick;
  commit;;
  refresh db_item.

(** [read_items] *)
Definition read_items : M (list ItemModel) :=
  query_all.

(** [read_item] *)
Definition read_item (item_id : Z) : M ItemModel :=
  item ← query_first item_id;
  match item with
  | None => raise (HTTPException 404 "Item not found")
  | Some item => mret item
  end.

(** [update_item] *)
Definition update_item (item_id : Z) (item : ItemUpdate) : M ItemModel :=
  db_item ← query_first item_id;
  match db_item with
  | None => raise (HTTPException 404 "Item not found")
  | Some db_item =>
      db_item ← match update_name item with
                 | Some v => set_name v db_item
                 | None => mret db_item
                 end;
      db_item ← match update_description item with
                 | Some v => set_description (Some v) db_item
                 | None => mret db_item
                 end;
      db_item ← match update_price item with
                 | Some v => set_price v db_item
                 | None => mret db_item
                 end;
      commit;;
      refresh db_item
  end.

(** [delete_item] *)
Definition delete_item (item_id : Z) : M ItemModel :=
  db_item ← query_first item_id;
  match db_item with
  | None => raise (HTTPException 404 "Item not found")
  | Some db_item =>
      delete_row db_item;;
      commit;;
      mret db_item
  end.

(** ** Routes *)

Inductive Response (A : Type) : Type :=
| Success (status : Z) (body : A)
| Failure (status : Z) (e : Exception).
Arguments Success {A} status body.
Arguments Failure {A} status e.

(** The status an exception is answered with: what no handler catches is
    an internal server error. *)
Definition status_of (e : Exception) : Z :=
  match e with
  | RequestValidationError _ => 422
  | HTTPException c _ => c
  | InvalidRequestError | OverflowError | IntegrityError | OperationalError => 500
  end.

(** A route: the parameters are resolved first, then the handler runs in
    its session, then the result goes through the response model.  A route
    declared without [status_code] answers 200. *)
Definition route {A B C} (status_code : option Z) (params : Result A)
    (handler : A → M B) (response_model : B → C) (t : Table)
    : Response C * Table :=
  match params with
  | Raise e => (Failure (status_of e) e, t)
  | Return a =>
      match get_db (handler a) t with
      | (Return b, t') => (Success (default 200 status_code) (response_model b), t')
      | (Raise e, t') => (Failure (status_of e) e, t')
      end
  end.

(** [@app.post("/items/", response_model=ItemResponse)] *)
Definition post_items (now : datetime) (pick : Z) (nm : Arg string)
    (pr : Arg float) (descr : Arg string)
    : Table → Response ItemResponse * Table :=
  route None (get_item_create nm pr descr) (create_item now pick)
    from_attributes.

(** [@app.get("/items/", response_model=list[ItemResponse])] *)
Definition get_items : Table → Response (list ItemResponse) * Table :=
  route None (Return ()) (λ _, read_items) (fmap from_attributes).

(** [@app.get("/items/{item_id}", response_model=ItemResponse)] *)
Definition get_item (item_id : Z) : Table → Response ItemResponse * Table :=
  route None (Return ()) (λ _, read_item item_id) from_attributes.

(** [@app.put("/items/{item_id}", response_model=ItemResponse)] *)
Definition put_item (item_id : Z) (nm : Arg (option string))
    (pr : Arg (option float)) (descr : Arg (option string))
    : Table → Response ItemResponse * Table :=
  route None (get_item_update nm pr descr) (update_item item_id) from_attributes.

(** [@app.delete("/items/{item_id}", response_model=ItemResponse)] *)
Definition delete_item_route (item_id : Z) : Table → Response ItemResponse * Table :=
  route None (Return ()) (λ _, delete_item item_id) from_attributes.

(** ** Vocabulary of the statements *)

Definition not_found : Exception := HTTPException 404 "Item not found".

Definition response_status {A} (r : Response A) : Z :=
  match r with
  | Success st _ => st
  | Failure st _ => st
  end.

(** The row an update leaves behind, if the store takes it: a field of the
    request that holds a value replaces the column, a field that holds
    [None] keeps it. *)
Definition updated_row (item : ItemUpdate) (r : Row) : option Row :=
  p ← match update_price item with
      | Some v => sqlite_real v
      | None => Some (row_price r)
      end;
  Some {| row_name := default (row_name r) (update_name item);
          row_description :=
            from_option Some (row_description r) (update_description item);
          row_price := p;
          row_created_at := row_created_at r |}.

(** The row a create request leaves behind, if the store takes it. *)
Definition created_row (now : datetime) (item : ItemCreate) : option Row :=
  p ← sqlite_real (create_price item);
  Some (mkRow (create_name item) (create_description item) p now).

(** An update request whose price, if it has one, is not NaN. *)
Definition storable (item : ItemUpdate) : Prop :=
  ∀ v, update_price item = Some v → is_nan v = false.

(** What a lookup of an id that has no row raises. *)
Definition lookup_failure (k : Z) : Exception :=
  if int64 k then not_found else OverflowError.

(** What a well-typed update parameter turns into. *)
Definition arg_value {A} (a : Arg (option A)) : option A :=
  match a with
  | Given v => v
  | Missing | Malformed => None
  end.

(** The same parameter with an explicit null left out of the request. *)
Definition null_to_missing {A} (a : Arg (option A)) : Arg (option A) :=
  match a with
  | Given None => Missing
  | _ => a
  end.

(** One update request, and a run of them on a table. *)
Record UpdateRequest : Type := mkUpdateRequest {
  req_id : Z;
  req_name : Arg (option string);
  req_price : Arg (option float);
  req_description : Arg (option string);
}.

Definition put_request (q : UpdateRequest) (t : Table) : Response ItemResponse * Table :=
  put_item (req_id q) (req_name q) (req_price q) (req_description q) t.

Definition run_updates (qs : list UpdateRequest) (t : Table) : Table :=
  foldl (λ acc q, (put_request q acc).2) t qs.

(** The rows of a table as the responses of a listing. *)
Definition listing (t : Table) : list ItemResponse :=
  from_attributes <$> ((λ kr, load kr.1 kr.2) <$> scan t).

(** The row a response was read from. *)
Definition response_row (b : ItemResponse) : Row :=
  mkRow (resp_name b) (resp_description b) (resp_price b) (resp_created_at b).

(** Two update requests as one: a field of the later request that holds a
    value wins, otherwise the field of the earlier request stands. *)
Definition merge_update (later earlier : ItemUpdate) : ItemUpdate :=
  {| update_name :=
       match update_name later with Some v => Some v | None => update_name earlier end;
     update_description :=
       match update_description later with
       | Some v => Some v
       | None => update_description earlier
       end;
     update_price :=
       match update_price later with Some v => Some v | None => update_price earlier end |}.

(** ** A small table to run the handlers on *)

Definition ink : Row := mkRow "Ink" (Some "blue") 3.25%float 20.
Definition pen : Row := mkRow "Pen" None 1.5%float 10.

Definition t_demo : Table := <[2 := ink]> (<[1 := pen]> ∅).

(** ** The table as a finite map *)

Section table.
Implicit Types (t : Table) (m : Rows) (k j : Z) (r : Row).

Lemma table_eq t1 t2 : (∀ k, t1 !! k = t2 !! k) → t1 = t2.
Proof. intros Heq. apply dsig_eq, map_eq, Heq. Qed.

Lemma pair_table_eq {A} (x y : A * Table) :
  x.1 = y.1 → proj1_sig x.2 = proj1_sig y.2 → x = y.
Proof.
  destruct x as [a t1], y as [b t2]; simpl. intros -> Heq.
  by rewrite (proj2 (dsig_eq _ t1 t2) Heq).
Qed.

Lemma table_lookup_int64 t k r : t !! k = Some r → int64 k = true.
Proof. intros Hk. exact (proj2_dsig t k r Hk). Qed.

Lemma table_lookup_out_of_range t k : int64 k = false → t !! k = None.
Proof.
  intros Hk. destruct (t !! k) as [r|] eqn:Hr; [|done].
  apply table_lookup_int64 in Hr. congruence.
Qed.

Lemma checked_rows m t : int64_keys m → proj1_sig (checked m t) = m.
Proof. intros Hm. unfold checked. by destruct (decide (int64_keys m)). Qed.

Lemma rows_insert t k r : int64 k = true → proj1_sig (<[k := r]> t) = <[k := r]> (proj1_sig t).
Proof.
  intros Hk. apply checked_rows, map_Forall_insert_2; [done|].
  apply (proj2_dsig t).
Qed.

Lemma rows_delete t k : proj1_sig (delete k t) = delete k (proj1_sig t).
Proof. apply checked_rows, map_Forall_delete, (proj2_dsig t). Qed.

Lemma rows_alter (f : Row → Row) t k : proj1_sig (alter f k t) = alter f k (proj1_sig t).
Proof.
  apply checked_rows. intros j r Hj.
  destruct (decide (k = j)) as [<-|Hne].
  - rewrite lookup_alter_eq in Hj.
    destruct (`t !! k) as [r'|] eqn:Hk; [|done].
    exact (proj2_dsig t k r' Hk).
  - rewrite lookup_alter_ne in Hj by done. exact (proj2_dsig t j r Hj).
Qed.

Lemma table_lookup_empty k : (∅ : Table) !! k = None.
Proof. unfold lookup, table_lookup. simpl. apply lookup_empty. Qed.

Lemma table_lookup_insert_eq t k r :
  int64 k = true → <[k := r]> t !! k = Some r.
Proof.
  intros Hk. unfold lookup, table_lookup. rewrite rows_insert by done.
  apply lookup_insert_eq.
Qed.

Lemma table_lookup_insert_ne t k j r : k ≠ j → <[k := r]> t !! j = t !! j.
Proof.
  intros Hne. unfold lookup at 1, table_lookup, insert, table_insert, checked.
  destruct (decide _); [|done]. simpl. by apply lookup_insert_ne.
Qed.

Lemma table_lookup_delete_eq t k : delete k t !! k = None.
Proof.
  unfold lookup, table_lookup. rewrite rows_delete. apply lookup_delete_eq.
Qed.

Lemma table_lookup_delete_ne t k j : k ≠ j → delete k t !! j = t !! j.
Proof.
  intros Hne. unfold lookup at 1, table_lookup. rewrite rows_delete.
  by apply lookup_delete_ne.
Qed.

Lemma table_lookup_delete_Some t k j r :
  delete k t !! j = Some r ↔ k ≠ j ∧ t !! j = Some r.
Proof.
  unfold lookup at 1, table_lookup. rewrite rows_delete.
  apply lookup_delete_Some.
Qed.

Lemma table_insert_id t k r : t !! k = Some r → <[k := r]> t = t.
Proof.
  intros Hk. apply dsig_eq.
  rewrite rows_insert by (by eapply table_lookup_int64).
  by apply insert_id.
Qed.

Lemma table_insert_insert_eq t k r r' :
  int64 k = true → <[k := r]> (<[k := r']> t) = <[k := r]> t.
Proof.
  intros Hk. apply dsig_eq. rewrite !rows_insert by done.
  apply insert_insert_eq.
Qed.

Lemma table_delete_insert_id t k r :
  int64 k = true → t !! k = None → delete k (<[k := r]> t) = t.
Proof.
  intros Hk Hnone. apply dsig_eq. rewrite rows_delete, rows_insert by done.
  by apply delete_insert_id.
Qed.

Lemma table_alter_present (f : Row → Row) t k r :
  t !! k = Some r → alter f k t = <[k := f r]> t.
Proof.
  intros Hk. apply dsig_eq.
  rewrite rows_alter, rows_insert by (by eapply table_lookup_int64).
  apply map_eq; intros j. destruct (decide (k = j)) as [<-|Hne].
  - rewrite lookup_alter_eq, lookup_insert_eq.
    unfold lookup, table_lookup in Hk. by rewrite Hk.
  - by rewrite lookup_alter_ne, lookup_insert_ne.
Qed.

Lemma table_alter_absent (f : Row → Row) t k : t !! k = None → alter f k t = t.
Proof.
  intros Hk. apply dsig_eq. rewrite rows_alter.
  apply map_eq; intros j. destruct (decide (k = j)) as [<-|Hne].
  - rewrite lookup_alter_eq. unfold lookup, table_lookup in Hk. by rewrite Hk.
  - by rewrite lookup_alter_ne.
Qed.

Lemma table_size_insert_None t k r :
  int64 k = true → t !! k = None → size (<[k := r]> t) = S (size t).
Proof.
  intros Hk Hnone. unfold size, table_size. rewrite rows_insert by done.
  by apply map_size_insert_None.
Qed.

Lemma table_size_delete_Some t k r :
  t !! k = Some r → size t = S (size (delete k t)).
Proof.
  intros Hk. unfold size, table_size. rewrite rows_delete.
  rewrite map_size_delete_Some by (by eexists).
  assert (size (proj1_sig t) ≠ 0)%nat as Hsz.
  { rewrite map_size_empty_iff. intros Hempty.
    unfold lookup, table_lookup in Hk. by rewrite Hempty, lookup_empty in Hk. }
  by destruct (size (proj1_sig t)).
Qed.

End table.

(** Decides an equation between outcomes on concrete tables. *)
Ltac run_route := apply pair_table_eq; vm_compute; reflexivity.

(** The scenario of the specification: insert, update the price, delete,
    read. *)
Example scenario_insert :
  post_items 7 0 (Given "Pen") (Given 1.5%float) Missing ∅
  = (Success 200 (mkItemResponse 1 "Pen" None 1.5%float 7),
     <[1 := mkRow "Pen" None 1.5%float 7]> ∅).
Proof. run_route. Qed.

Example scenario_update :
  put_item 1 Missing (Given (Some 2.0%float)) Missing
    (<[1 := mkRow "Pen" None 1.5%float 7]> ∅)
  = (Success 200 (mkItemResponse 1 "Pen" None 2.0%float 7),
     <[1 := mkRow "Pen" None 2.0%float 7]> ∅).
Proof. run_route. Qed.

Example scenario_delete :
  delete_item_route 1 (<[1 := mkRow "Pen" None 2.0%float 7]> ∅)
  = (Success 200 (mkItemResponse 1 "Pen" None 2.0%float 7), ∅).
Proof. run_route. Qed.

Example scenario_read_deleted :
  get_item 1 ∅ = (Failure 404 not_found, ∅).
Proof. run_route. Qed.

(** The store at the edges of what it holds. *)
Example scenario_nan :
  post_items 7 0 (Given "Pen") (Given nan) Missing t_demo
  = (Failure 500 IntegrityError, t_demo).
Proof. run_route. Qed.

Example scenario_negative_zero :
  post_items 7 0 (Given "Pen") (Given neg_zero) Missing ∅
  = (Success 200 (mkItemResponse 1 "Pen" None zero 7),
     <[1 := mkRow "Pen" None zero 7]> ∅).
Proof. run_route. Qed.

Example scenario_big_id :
  get_item (2 ^ 63) t_demo = (Failure 500 OverflowError, t_demo).
Proof. run_route. Qed.

Example scenario_last_rowid :
  (post_items 7 5 (Given "Pen") (Given 1.5%float) Missing
     (<[max_int64 := pen]> ∅)).1
  = Success 200 (mkItemResponse 5 "Pen" None 1.5%float 7).
Proof. vm_compute. reflexivity. Qed.

Example scenario_list_order :
  (get_items (<[3 := pen]> (<[1 := pen]> (<[2 := ink]> ∅)))).1
  = Success 200 [mkItemResponse 1 "Pen" None 1.5%float 10;
                 mkItemResponse 2 "Ink" (Some "blue") 3.25%float 20;
                 mkItemResponse 3 "Pen" None 1.5%float 10].
Proof. vm_compute. reflexivity. Qed.

(** ** The store *)

Section store.
Implicit Types (t : Table) (k j : Z) (r : Row) (p q : float).

Lemma int64_spec k : int64 k = true ↔ min_int64 ≤ k ≤ max_int64.
Proof. unfold int64. rewrite andb_true_iff, !Z.leb_le. tauto. Qed.

Lemma sqlite_real_Some p q :
  sqlite_real p = Some q ↔
  is_nan p = false ∧ (if is_zero p then q = zero else q = p).
Proof.
  unfold sqlite_real. destruct (is_nan p), (is_zero p);
    (split; [intros [= <-]|intros [? ->]]); done.
Qed.

Lemma sqlite_real_None p : sqlite_real p = None ↔ is_nan p = true.
Proof. unfold sqlite_real. by destruct (is_nan p), (is_zero p). Qed.

Lemma sqlite_real_is_Some p : is_nan p = false → is_Some (sqlite_real p).
Proof.
  intros Hp. destruct (sqlite_real p) eqn:Hs; [by eexists|].
  apply sqlite_real_None in Hs. congruence.
Qed.

Lemma max_rowid_bound t k r :
  t !! k = Some r → ∃ m, max_rowid t = Some m ∧ k ≤ m.
Proof.
  unfold max_rowid, lookup, table_lookup. generalize (proj1_sig t) as rows.
  intros rows. revert k r.
  apply (map_fold_weak_ind (λ acc (m : Rows),
    ∀ k r, m !! k = Some r → ∃ mx, acc = Some mx ∧ k ≤ mx)); clear rows.
  - intros k r Hr. by rewrite lookup_empty in Hr.
  - intros i x m acc _ IH k r Hk.
    destruct (decide (i = k)) as [->|Hne].
    + destruct acc as [mx|]; simpl; eexists; split; try done; lia.
    + rewrite lookup_insert_ne in Hk by done.
      destruct (IH k r Hk) as (mx & -> & Hle). simpl.
      eexists; split; [done|lia].
Qed.

Lemma max_rowid_stored t m : max_rowid t = Some m → is_Some (t !! m).
Proof.
  unfold max_rowid, lookup, table_lookup. generalize (proj1_sig t) as rows.
  intros rows. revert m.
  apply (map_fold_weak_ind (λ acc (m : Rows),
    ∀ mx, acc = Some mx → is_Some (m !! mx))); clear rows.
  - done.
  - intros i x m acc _ IH mx [= <-].
    destruct acc as [a|]; simpl.
    + destruct (Z.max_spec i a) as [[_ ->]|[_ ->]].
      * destruct (decide (i = a)) as [->|Hne];
          [rewrite lookup_insert_eq|rewrite lookup_insert_ne by done]; eauto.
      * rewrite lookup_insert_eq. eauto.
    + rewrite lookup_insert_eq. eauto.
Qed.

Lemma rowid_free_spec k t :
  rowid_free k t = true ↔ int64 k = true ∧ t !! k = None.
Proof.
  unfold rowid_free. rewrite andb_true_iff, bool_decide_eq_true. tauto.
Qed.

(** While the largest key is below the largest integer the store always
    has a key to give. *)
Lemma new_rowid_room pick t :
  (∀ m, max_rowid t = Some m → m < max_int64) →
  rowid_free (new_rowid pick t) t = true.
Proof.
  intros Hroom. apply rowid_free_spec. unfold new_rowid.
  destruct (max_rowid t) as [m|] eqn:Hmax.
  - specialize (Hroom m eq_refl).
    destruct (Z.ltb_spec m max_int64) as [_|?]; [|lia].
    destruct (max_rowid_stored t m Hmax) as [r Hm].
    apply table_lookup_int64, int64_spec in Hm. split.
    + apply int64_spec. lia.
    + destruct (t !! (m + 1)) as [r'|] eqn:Hk; [|done].
      destruct (max_rowid_bound t _ _ Hk) as (m' & Hm' & Hle).
      rewrite Hmax in Hm'. injection Hm' as <-. lia.
  - split; [done|].
    destruct (t !! 1) as [r'|] eqn:Hk; [|done].
    destruct (max_rowid_bound t _ _ Hk) as (m' & Hm' & _). congruence.
Qed.
End store.

(** ** What each handler does to the table *)

(** Runs a handler body on its session, down to the table operations. *)
Ltac run_session :=
  unfold get_db, create_item, read_item, update_item, delete_item,
    query_first, add, set_name, set_description, set_price, delete_row,
    commit, refresh, raise, queue, mbind, M_bind, mret, M_ret; simpl.

Section handlers.
Implicit Types (t : Table) (k : Z) (r : Row).

Lemma flush_nil t : flush [] t = Return t.
Proof. reflexivity. Qed.

Lemma flush_cons w ws t :
  flush (w :: ws) t
  = match apply_write w t with
    | Return t' => flush ws t'
    | Raise e => Raise e
    end.
Proof. reflexivity. Qed.

Lemma apply_UpdateName t k r v :
  t !! k = Some r →
  apply_write (UpdateName k v) t
  = Return (<[k := mkRow v (row_description r) (row_price r) (row_created_at r)]> t).
Proof.
  intros Hk. unfold apply_write. by rewrite (table_alter_present _ _ _ _ Hk).
Qed.

Lemma apply_UpdateDescription t k r v :
  t !! k = Some r →
  apply_write (UpdateDescription k v) t
  = Return (<[k := mkRow (row_name r) v (row_price r) (row_created_at r)]> t).
Proof.
  intros Hk. unfold apply_write. by rewrite (table_alter_present _ _ _ _ Hk).
Qed.

Lemma apply_UpdatePrice t k r v :
  t !! k = Some r →
  apply_write (UpdatePrice k v) t
  = match sqlite_real v with
    | Some p => Return (<[k := mkRow (row_name r) (row_description r) p
                                 (row_created_at r)]> t)
    | None => Raise IntegrityError
    end.
Proof.
  intros Hk. unfold apply_write. destruct (sqlite_real v); [|done].
  by rewrite (table_alter_present _ _ _ _ Hk).
Qed.

Lemma apply_InsertRow t k r :
  apply_write (InsertRow k r) t
  = if rowid_free k t then
      match sqlite_real (row_price r) with
      | Some p => Return (<[k := mkRow (row_name r) (row_description r) p
                                   (row_created_at r)]> t)
      | None => Raise IntegrityError
      end
    else Raise OperationalError.
Proof. reflexivity. Qed.

Lemma apply_DeleteRow t k : apply_write (DeleteRow k) t = Return (delete k t).
Proof. reflexivity. Qed.

Opaque flush apply_write.

(** One queued column write on a row that is there. *)
Ltac flush_step Hin :=
  rewrite flush_cons;
  first
    [ erewrite apply_UpdateName
        by first [eassumption | apply table_lookup_insert_eq, Hin]
    | erewrite apply_UpdateDescription
        by first [eassumption | apply table_lookup_insert_eq, Hin]
    | erewrite apply_UpdatePrice
        by first [eassumption | apply table_lookup_insert_eq, Hin] ];
  simpl.

Lemma create_item_run now pick item t :
  get_db (create_item now pick item) t
  = if rowid_free (new_rowid pick t) t then
      match created_row now item with
      | Some r => (Return (load (new_rowid pick t) r),
                   <[new_rowid pick t := r]> t)
      | None => (Raise IntegrityError, t)
      end
    else (Raise OperationalError, t).
Proof.
  run_session. unfold created_row.
  rewrite flush_cons, apply_InsertRow; simpl.
  destruct (rowid_free (new_rowid pick t) t) eqn:Hfree; [|done].
  apply rowid_free_spec in Hfree as [Hk _].
  destruct (sqlite_real (create_price item)) as [q|]; simpl; [|done].
  rewrite flush_nil; simpl. by rewrite table_lookup_insert_eq.
Qed.

Lemma read_item_found t k r :
  t !! k = Some r → get_db (read_item k) t = (Return (load k r), t).
Proof.
  intros Hk. run_session.
  by rewrite (table_lookup_int64 _ _ _ Hk), Hk.
Qed.

Lemma read_item_absent t k :
  t !! k = None → get_db (read_item k) t = (Raise (lookup_failure k), t).
Proof.
  intros Hk. run_session. unfold lookup_failure.
  destruct (int64 k); [|done]. by rewrite Hk.
Qed.

Lemma update_item_found t k r item :
  t !! k = Some r →
  get_db (update_item k item) t
  = match updated_row item r with
    | Some r' => (Return (load k r'), <[k := r']> t)
    | None => (Raise IntegrityError, t)
    end.
Proof.
  intros Hk. pose proof (table_lookup_int64 _ _ _ Hk) as Hin.
  destruct item as [[n|] [d|] [p|]];
    run_session; unfold updated_row; rewrite Hin; simpl; rewrite Hk; simpl;
    repeat flush_step Hin;
    try (destruct (sqlite_real p) as [q|]; simpl; [|done]);
    rewrite ?flush_nil; simpl;
    rewrite ?table_insert_insert_eq by done;
    try (by rewrite table_lookup_insert_eq).
  rewrite Hk. destruct r; simpl. by rewrite (table_insert_id _ _ _ Hk).
Qed.

Lemma update_item_absent t k item :
  t !! k = None →
  get_db (update_item k item) t = (Raise (lookup_failure k), t).
Proof.
  intros Hk. run_session. unfold lookup_failure.
  destruct (int64 k); [|done]. by rewrite Hk.
Qed.

Lemma delete_item_found t k r :
  t !! k = Some r → get_db (delete_item k) t = (Return (load k r), delete k t).
Proof.
  intros Hk. run_session.
  rewrite (table_lookup_int64 _ _ _ Hk), Hk; simpl.
  by rewrite flush_cons, apply_DeleteRow, flush_nil.
Qed.

Lemma delete_item_absent t k :
  t !! k = None →
  get_db (delete_item k) t = (Raise (lookup_failure k), t).
Proof.
  intros Hk. run_session. unfold lookup_failure.
  destruct (int64 k); [|done]. by rewrite Hk.
Qed.
End handlers.

(** ** What each route answers *)

Section routes.
Implicit Types (t : Table) (k : Z) (r : Row).

Lemma lookup_failure_stored_key t k r :
  t !! k = Some r → lookup_failure k = not_found.
Proof.
  intros Hk. unfold lookup_failure. by rewrite (table_lookup_int64 _ _ _ Hk).
Qed.

Lemma get_item_update_Return nm pr descr item :
  get_item_update nm pr descr = Return item →
  item = mkItemUpdate (arg_value nm) (arg_value descr) (arg_value pr).
Proof. destruct nm, pr, descr; simpl; intros [= <-]; done. Qed.

Lemma get_item_update_Raise nm pr descr e :
  get_item_update nm pr descr = Raise e →
  ∃ fs, e = RequestValidationError fs ∧ fs ≠ [].
Proof.
  destruct nm, pr, descr; simpl; intros [= <-]; eexists; split; done.
Qed.

Lemma get_item_create_Return nm pr descr item :
  get_item_create nm pr descr = Return item →
  nm = Given (create_name item)
  ∧ pr = Given (create_price item)
  ∧ with_default None (arg_map Some descr) = Some (create_description item).
Proof. destruct nm, pr, descr; simpl; intros [= <-]; done. Qed.

Lemma get_item_create_Raise nm pr descr e :
  get_item_create nm pr descr = Raise e →
  ∃ fs, e = RequestValidationError fs ∧ fs ≠ [].
Proof.
  destruct nm, pr, descr; simpl; intros [= <-]; eexists; split; done.
Qed.

Lemma post_items_valid now pick nm pr descr item t :
  get_item_create nm pr descr = Return item →
  post_items now pick nm pr descr t
  = if rowid_free (new_rowid pick t) t then
      match created_row now item with
      | Some r => (Success 200 (from_attributes (load (new_rowid pick t) r)),
                   <[new_rowid pick t := r]> t)
      | None => (Failure 500 IntegrityError, t)
      end
    else (Failure 500 OperationalError, t).
Proof.
  intros Hv. unfold post_items, route. rewrite Hv, create_item_run.
  destruct (rowid_free _ _); [|done]. by destruct (created_row now item).
Qed.

Lemma post_items_invalid now pick nm pr descr e t :
  get_item_create nm pr descr = Raise e →
  post_items now pick nm pr descr t = (Failure 422 e, t).
Proof.
  intros Hv. unfold post_items, route. rewrite Hv.
  by destruct (get_item_create_Raise _ _ _ _ Hv) as (fs & -> & _).
Qed.

(** What there is to know when the create route has answered an item. *)
Lemma post_items_Success now pick nm pr descr t st body t' :
  post_items now pick nm pr descr t = (Success st body, t') →
  ∃ item r,
    get_item_create nm pr descr = Return item
    ∧ created_row now item = Some r
    ∧ rowid_free (new_rowid pick t) t = true
    ∧ st = 200
    ∧ body = from_attributes (load (new_rowid pick t) r)
    ∧ t' = <[new_rowid pick t := r]> t.
Proof.
  intros Hpost.
  destruct (get_item_create nm pr descr) as [item|e] eqn:Hv.
  - rewrite (post_items_valid _ _ _ _ _ _ _ Hv) in Hpost.
    destruct (rowid_free _ _) eqn:Hfree; [|done].
    destruct (created_row now item) as [r|] eqn:Hr; [|done].
    injection Hpost as <- <- <-. by exists item, r.
  - by rewrite (post_items_invalid _ _ _ _ _ _ _ Hv) in Hpost.
Qed.

Lemma get_item_found t k r :
  t !! k = Some r →
  get_item k t = (Success 200 (from_attributes (load k r)), t).
Proof.
  intros Hk. unfold get_item, route. by rewrite (read_item_found _ _ _ Hk).
Qed.

Lemma get_item_absent t k :
  t !! k = None →
  get_item k t
  = (Failure (if int64 k then 404 else 500) (lookup_failure k), t).
Proof.
  intros Hk. unfold get_item, route. rewrite (read_item_absent _ _ Hk).
  unfold lookup_failure. by destruct (int64 k).
Qed.

Lemma put_item_found nm pr descr item t k r :
  get_item_update nm pr descr = Return item →
  t !! k = Some r →
  put_item k nm pr descr t
  = match updated_row item r with
    | Some r' => (Success 200 (from_attributes (load k r')), <[k := r']> t)
    | None => (Failure 500 IntegrityError, t)
    end.
Proof.
  intros Hv Hk. unfold put_item, route.
  rewrite Hv, (update_item_found _ _ _ _ Hk).
  by destruct (updated_row item r).
Qed.

Lemma put_item_absent nm pr descr item t k :
  get_item_update nm pr descr = Return item →
  t !! k = None →
  put_item k nm pr descr t
  = (Failure (if int64 k then 404 else 500) (lookup_failure k), t).
Proof.
  intros Hv Hk. unfold put_item, route.
  rewrite Hv, (update_item_absent _ _ _ Hk).
  unfold lookup_failure. by destruct (int64 k).
Qed.

Lemma put_item_invalid nm pr descr e t k :
  get_item_update nm pr descr = Raise e →
  put_item k nm pr descr t = (Failure 422 e, t).
Proof.
  intros Hv. unfold put_item, route. rewrite Hv.
  by destruct (get_item_update_Raise _ _ _ _ Hv) as (fs & -> & _).
Qed.

Lemma delete_item_route_found t k r :
  t !! k = Some r →
  delete_item_route k t = (Success 200 (from_attributes (load k r)), delete k t).
Proof.
  intros Hk. unfold delete_item_route, route.
  by rewrite (delete_item_found _ _ _ Hk).
Qed.

Lemma delete_item_route_absent t k :
  t !! k = None →
  delete_item_route k t
  = (Failure (if int64 k then 404 else 500) (lookup_failure k), t).
Proof.
  intros Hk. unfold delete_item_route, route.
  rewrite (delete_item_absent _ _ Hk).
  unfold lookup_failure. by destruct (int64 k).
Qed.

(** The update route either stores the updated row and answers with it, or
    answers with an error and leaves the table. *)
Lemma put_item_outcome k nm pr descr t :
  (∃ item r r',
     get_item_update nm pr descr = Return item
     ∧ t !! k = Some r
     ∧ updated_row item r = Some r'
     ∧ put_item k nm pr descr t
       = (Success 200 (from_attributes (load k r')), <[k := r']> t))
  ∨ (∃ st e, put_item k nm pr descr t = (Failure st e, t)).
Proof.
  destruct (get_item_update nm pr descr) as [item|e] eqn:Hv.
  - destruct (t !! k) as [r|] eqn:Hk.
    + destruct (updated_row item r) as [r'|] eqn:Hr.
      * left. exists item, r, r'. split_and!; try done.
        by rewrite (put_item_found _ _ _ _ _ _ _ Hv Hk), Hr.
      * right. eexists _, _.
        by rewrite (put_item_found _ _ _ _ _ _ _ Hv Hk), Hr.
    + right. eexists _, _. by apply (put_item_absent _ _ _ item).
  - right. eexists _, _. by apply put_item_invalid.
Qed.

Lemma updated_row_Some item r r' :
  updated_row item r = Some r' →
  row_name r' = default (row_name r) (update_name item)
  ∧ row_description r'
    = from_option Some (row_description r) (update_description item)
  ∧ Some (row_price r')
    = match update_price item with
      | Some v => sqlite_real v
      | None => Some (row_price r)
      end
  ∧ row_created_at r' = row_created_at r.
Proof.
  unfold updated_row. destruct (update_price item) as [v|]; simpl.
  - destruct (sqlite_real v); simpl; [|done]. by intros [= <-].
  - by intros [= <-].
Qed.

Lemma updated_row_storable item r :
  storable item → is_Some (updated_row item r).
Proof.
  intros Hs. unfold updated_row.
  destruct (update_price item) as [v|] eqn:Hp; simpl.
  - destruct (sqlite_real_is_Some v (Hs v Hp)) as [q ->]. by eexists.
  - by eexists.
Qed.

Lemma updated_row_twice item r r' :
  updated_row item r = Some r' → updated_row item r' = Some r'.
Proof.
  unfold updated_row. destruct item as [[n|] [d|] [p|]]; simpl;
    try destruct (sqlite_real p); simpl; try done;
    intros [= <-]; by try destruct r.
Qed.
End routes.


(** ** Reading, creating and deleting *)

Section lifecycle.
Implicit Types (t : Table) (k : Z) (r : Row).

(** C2: deleting a stored item answers with the item as it was stored just
    before, the table that results no longer has the key (and has every
    other key as before), and reading the key afterwards is NotFound. *)
Theorem delete_returns_snapshot t k r :
  t !! k = Some r →
  ∃ t', delete_item_route k t = (Success 200 (from_attributes (load k r)), t')
        ∧ t' !! k = None
        ∧ (∀ j, j ≠ k → t' !! j = t !! j)
        ∧ get_item k t = (Success 200 (from_attributes (load k r)), t)
        ∧ get_item k t' = (Failure 404 not_found, t').
Proof.
  intros Hk. exists (delete k t). split_and!.
  - by apply delete_item_route_found.
  - apply table_lookup_delete_eq.
  - intros j Hj. by apply table_lookup_delete_ne.
  - by apply get_item_found.
  - rewrite get_item_absent by apply table_lookup_delete_eq.
    by rewrite (table_lookup_int64 _ _ _ Hk), (lookup_failure_stored_key _ _ _ Hk).
Qed.

Lemma delete_returns_snapshot_witness :
  t_demo !! 2 = Some ink
  ∧ ∃ t', delete_item_route 2 t_demo
          = (Success 200 (from_attributes (load 2 ink)), t')
          ∧ t' !! 2 = None
          ∧ (∀ j, j ≠ 2 → t' !! j = t_demo !! j)
          ∧ get_item 2 t_demo = (Success 200 (from_attributes (load 2 ink)), t_demo)
          ∧ get_item 2 t' = (Failure 404 not_found, t').
Proof.
  split; [reflexivity|]. apply (delete_returns_snapshot t_demo 2 ink).
  reflexivity.
Defined.

(** C3: whenever the create route answers with an item, a read of that
    item's id answers with the same item: same id, name, description, price
    and created_at. *)
Theorem read_after_create now pick nm pr descr t st body t' :
  post_items now pick nm pr descr t = (Success st body, t') →
  st = 200
  ∧ get_item (resp_id body) t' = (Success 200 body, t').
Proof.
  intros Hpost.
  destruct (post_items_Success _ _ _ _ _ _ _ _ _ Hpost)
    as (item & r & _ & _ & Hfree & -> & -> & ->).
  split; [done|]. simpl.
  apply rowid_free_spec in Hfree as [Hin _].
  apply get_item_found. by apply table_lookup_insert_eq.
Qed.

Lemma read_after_create_witness :
  post_items 30 0 (Given "Cap") (Given 0.5%float) (Given "red") t_demo
  = (Success 200 (mkItemResponse 3 "Cap" (Some "red") 0.5%float 30),
     <[3 := mkRow "Cap" (Some "red") 0.5%float 30]> t_demo)
  ∧ 200 = 200
  ∧ get_item 3 (<[3 := mkRow "Cap" (Some "red") 0.5%float 30]> t_demo)
    = (Success 200 (mkItemResponse 3 "Cap" (Some "red") 0.5%float 30),
       <[3 := mkRow "Cap" (Some "red") 0.5%float 30]> t_demo).
Proof.
  split; [run_route|].
  apply (read_after_create 30 0 (Given "Cap") (Given 0.5%float) (Given "red")
           t_demo 200 (mkItemResponse 3 "Cap" (Some "red") 0.5%float 30)
           (<[3 := mkRow "Cap" (Some "red") 0.5%float 30]> t_demo)).
  run_route.
Defined.



End lifecycle.


(** ** Updating *)

Section updating.
Implicit Types (t : Table) (k : Z) (r : Row).

(** C4, as the code has it: an update of a stored item that supplies only
    the price, the price not NaN, answers with the item carrying the new
    price (a zero of either sign as zero, any other number as supplied) and
    its old id, name, description and created_at, stores exactly that, and
    leaves every other stored item as it was; with a NaN price the update
    is answered 500 and the table is left as it was. *)
Theorem update_price_only t k r p :
  t !! k = Some r →
  (is_nan p = false →
   ∃ q t',
     (if is_zero p then q = zero else q = p)
     ∧ put_item k Missing (Given (Some p)) Missing t
       = (Success 200
            (mkItemResponse k (row_name r) (row_description r) q (row_created_at r)),
          t')
     ∧ t' !! k = Some (mkRow (row_name r) (row_description r) q (row_created_at r))
     ∧ ∀ j, j ≠ k → t' !! j = t !! j)
  ∧ (is_nan p = true →
     put_item k Missing (Given (Some p)) Missing t
     = (Failure 500 IntegrityError, t)).
Proof.
  intros Hk. pose proof (table_lookup_int64 _ _ _ Hk) as Hin.
  rewrite (put_item_found _ _ _ (mkItemUpdate None None (Some p)) _ _ r)
    by done.
  unfold updated_row; simpl. split.
  - intros Hp. destruct (sqlite_real_is_Some p Hp) as [q Hq].
    rewrite Hq; simpl. apply sqlite_real_Some in Hq as [_ Hq].
    eexists q, _. split_and!; [done|done| |].
    + by rewrite table_lookup_insert_eq.
    + intros j Hj. by rewrite table_lookup_insert_ne.
  - intros Hp. apply sqlite_real_None in Hp. by rewrite Hp.
Qed.

Lemma update_price_only_witness :
  t_demo !! 1 = Some pen
  ∧ is_nan 2.0%float = false
  ∧ ∃ q t',
      (if is_zero 2.0%float then q = zero else q = 2.0%float)
      ∧ put_item 1 Missing (Given (Some 2.0%float)) Missing t_demo
        = (Success 200 (mkItemResponse 1 "Pen" None q 10), t')
      ∧ t' !! 1 = Some (mkRow "Pen" None q 10)
      ∧ ∀ j, j ≠ 1 → t' !! j = t_demo !! j.
Proof.
  split; [reflexivity|]. split; [reflexivity|].
  apply (proj1 (update_price_only t_demo 1 pen 2.0%float eq_refl)).
  reflexivity.
Defined.

(** C4, as the specification has it, fails: an update of item 1 that
    supplies only the price NaN is answered with an internal server error
    and the price stays what it was. *)
Lemma update_price_nan_rejected :
  t_demo !! 1 = Some pen
  ∧ get_item_update Missing (Given (Some nan)) Missing
    = Return (mkItemUpdate None None (Some nan))
  ∧ put_item 1 Missing (Given (Some nan)) Missing t_demo
    = (Failure 500 IntegrityError, t_demo).
Proof. split_and!; [reflexivity|reflexivity|run_route]. Qed.

(** C5: an update of a stored item that supplies no field succeeds, answers
    with the item as a read answers it, and leaves the table as it was. *)
Theorem update_nothing_is_noop t k r :
  t !! k = Some r →
  put_item k Missing Missing Missing t
  = (Success 200 (from_attributes (load k r)), t)
  ∧ put_item k Missing Missing Missing t = get_item k t.
Proof.
  intros Hk.
  assert (put_item k Missing Missing Missing t
          = (Success 200 (from_attributes (load k r)), t)) as Hput.
  { rewrite (put_item_found _ _ _ (mkItemUpdate None None None) _ _ r) by done.
    destruct r; unfold updated_row; simpl. by rewrite table_insert_id. }
  split; [done|]. by rewrite Hput, (get_item_found _ _ _ Hk).
Qed.

Lemma update_nothing_is_noop_witness :
  t_demo !! 2 = Some ink
  ∧ put_item 2 Missing Missing Missing t_demo
    = (Success 200 (from_attributes (load 2 ink)), t_demo)
  ∧ put_item 2 Missing Missing Missing t_demo = get_item 2 t_demo.
Proof.
  split; [reflexivity|]. apply (update_nothing_is_noop t_demo 2 ink).
  reflexivity.
Defined.

(** Sorts an error into the kinds the routes answer with. *)
Ltac classify :=
  split; [done|];
  first [ by left
        | by right; right; split; [|left]
        | by right; right; split; [|right] ].

(** C7: when the update route or the delete route answers with an error,
    the table is what it was before the request, also when the error comes
    from the store after the handler has queued writes; the error is a
    validation error, the handlers' NotFound, or an internal server error
    raised by the lookup or by the commit. *)
Theorem failure_leaves_table t k nm pr descr st e t' :
  put_item k nm pr descr t = (Failure st e, t')
  ∨ delete_item_route k t = (Failure st e, t') →
  t' = t
  ∧ ((st = 404 ∧ e = not_found)
     ∨ (st = 422 ∧ ∃ fs, e = RequestValidationError fs)
     ∨ (st = 500 ∧ (e = OverflowError ∨ e = IntegrityError))).
Proof.
  intros [Hput|Hdel].
  - destruct (get_item_update nm pr descr) as [item|e'] eqn:Hv.
    + destruct (t !! k) as [r|] eqn:Hk.
      * rewrite (put_item_found _ _ _ _ _ _ _ Hv Hk) in Hput.
        destruct (updated_row item r); [done|].
        injection Hput as <- <- <-. classify.
      * rewrite (put_item_absent _ _ _ _ _ _ Hv Hk) in Hput.
        unfold lookup_failure in Hput.
        destruct (int64 k); injection Hput as <- <- <-; classify.
    + rewrite (put_item_invalid _ _ _ _ _ _ Hv) in Hput.
      injection Hput as <- <- <-.
      destruct (get_item_update_Raise _ _ _ _ Hv) as (fs & Hfs & _).
      split; [done|]. right; left. split; [done|]. by exists fs.
  - destruct (t !! k) as [r|] eqn:Hk.
    + by rewrite (delete_item_route_found _ _ _ Hk) in Hdel.
    + rewrite (delete_item_route_absent _ _ Hk) in Hdel.
      unfold lookup_failure in Hdel.
      destruct (int64 k); injection Hdel as <- <- <-; classify.
Qed.

Lemma failure_leaves_table_witness :
  (put_item 2 (Given (Some "Dye")) (Given (Some nan)) Missing t_demo
   = (Failure 500 IntegrityError, t_demo)
   ∨ delete_item_route 2 t_demo = (Failure 500 IntegrityError, t_demo))
  ∧ t_demo = t_demo
  ∧ ((500 = 404 ∧ IntegrityError = not_found)
     ∨ (500 = 422 ∧ ∃ fs, IntegrityError = RequestValidationError fs)
     ∨ (500 = 500 ∧ (IntegrityError = OverflowError
                     ∨ IntegrityError = IntegrityError))).
Proof.
  split; [left; run_route|].
  apply (failure_leaves_table t_demo 2 (Given (Some "Dye")) (Given (Some nan))
           Missing).
  left; run_route.
Defined.
End updating.

(** ** Null in an update request *)

Section null_fields.
Implicit Types (t : Table) (k j : Z) (r : Row).

Lemma null_to_missing_value {A} (a : Arg (option A)) :
  with_default None (null_to_missing a) = with_default None a.
Proof. by destruct a as [| |[v|]]. Qed.

Lemma get_item_update_null nm pr descr :
  get_item_update (null_to_missing nm) (null_to_missing pr) (null_to_missing descr)
  = get_item_update nm pr descr.
Proof. unfold get_item_update. by rewrite !null_to_missing_value. Qed.

(** One update request, whatever it is and whichever id it names, keeps a
    description that is there. *)
Lemma put_item_keeps_description nm pr descr t j k r :
  t !! k = Some r →
  is_Some (row_description r) →
  ∃ r', (put_item j nm pr descr t).2 !! k = Some r'
        ∧ is_Some (row_description r').
Proof.
  intros Hk Hd.
  destruct (put_item_outcome j nm pr descr t)
    as [(item & rj & rj' & _ & Hj & Hr & ->)|(st & e & ->)]; simpl; [|eauto].
  destruct (decide (j = k)) as [->|Hne].
  - rewrite table_lookup_insert_eq by (by eapply table_lookup_int64).
    eexists; split; [done|].
    assert (rj = r) as -> by congruence.
    destruct (updated_row_Some _ _ _ Hr) as (_ & -> & _).
    by destruct (update_description item).
  - rewrite table_lookup_insert_ne by done. eauto.
Qed.

Lemma run_updates_keep_description qs t k r :
  t !! k = Some r →
  is_Some (row_description r) →
  ∃ r', run_updates qs t !! k = Some r' ∧ is_Some (row_description r').
Proof.
  revert t r. induction qs as [|q qs IH]; intros t r Hk Hd.
  - simpl. eauto.
  - simpl.
    destruct (put_item_keeps_description (req_name q) (req_price q)
                (req_description q) t (req_id q) k r Hk Hd)
      as (r1 & Hk1 & Hd1).
    exact (IH _ r1 Hk1 Hd1).
Qed.

(** C10: in an update of a stored item, whether it succeeds or fails, a
    field supplied as null is left as it was, exactly as a field that is not
    supplied, and an item the update returns is the item then stored; so a
    description that is not null stays not null through any run of update
    requests. *)
Theorem update_null_keeps_field t k r :
  t !! k = Some r →
  (∀ nm pr descr item,
     get_item_update nm pr descr = Return item →
     ∃ r', (get_db (update_item k item) t).2 !! k = Some r'
           ∧ (nm = Given None ∨ nm = Missing → row_name r' = row_name r)
           ∧ (descr = Given None ∨ descr = Missing →
              row_description r' = row_description r)
           ∧ (pr = Given None ∨ pr = Missing → row_price r' = row_price r)
           ∧ row_created_at r' = row_created_at r
           ∧ ∀ o, (get_db (update_item k item) t).1 = Return o → o = load k r')
  ∧ (∀ qs, is_Some (row_description r) →
       ∃ r', run_updates qs t !! k = Some r' ∧ is_Some (row_description r')).
Proof.
  intros Hk. pose proof (table_lookup_int64 _ _ _ Hk) as Hin. split.
  - intros nm pr descr item Hv. rewrite (update_item_found _ _ _ item Hk).
    destruct (updated_row item r) as [r'|] eqn:Hr; simpl.
    + exists r'. rewrite table_lookup_insert_eq by done.
      destruct (updated_row_Some _ _ _ Hr) as (Hn & Hd & Hp & Hc).
      rewrite (get_item_update_Return _ _ _ _ Hv) in Hn, Hd, Hp; simpl in *.
      split_and!; try done.
      * by intros [->| ->].
      * by intros [->| ->].
      * intros [->| ->]; simpl in Hp; congruence.
      * by intros o [= <-].
    + exists r. by split_and!.
  - intros qs Hd. by apply (run_updates_keep_description qs t k r).
Qed.

Lemma update_null_keeps_field_witness :
  t_demo !! 2 = Some ink
  ∧ get_item_update (Given None) (Given None) (Given None)
    = Return (mkItemUpdate None None None)
  ∧ (get_db (update_item 2 (mkItemUpdate None None None)) t_demo).2 !! 2
    = Some ink
  ∧ ∃ r', run_updates [mkUpdateRequest 2 Missing (Given (Some 4.0%float)) (Given None);
                       mkUpdateRequest 1 Missing Missing (Given (Some "black"));
                       mkUpdateRequest 2 (Given None) Missing (Given None)]
            t_demo !! 2 = Some r'
          ∧ is_Some (row_description r').
Proof.
  split; [reflexivity|]. split; [reflexivity|].
  destruct (update_null_keeps_field t_demo 2 ink eq_refl) as [Hone Hrun].
  split.
  - destruct (Hone (Given None) (Given None) (Given None)
                (mkItemUpdate None None None) eq_refl)
      as (r' & Hput & Hn & Hd & Hp & Hc & _).
    rewrite Hput. destruct r' as [n' d' p' c']; simpl in *.
    rewrite (Hn (or_introl eq_refl)), (Hd (or_introl eq_refl)),
      (Hp (or_introl eq_refl)), Hc.
    reflexivity.
  - apply Hrun. exists "blue". reflexivity.
Defined.

(** C1, as the code has it: the validation layer turns a field that is
    absent and a field that is present with null into the same value, so
    the update handler cannot tell the two requests apart and leaves the
    stored field untouched in both; in an item the handler returns, a field
    is changed exactly when it was supplied with a value that is not null
    (a price as the store holds it), and the handler does return an item
    unless a price was supplied that is NaN. *)
Theorem update_absent_and_null_alike t k r nm pr descr item :
  t !! k = Some r →
  get_item_update nm pr descr = Return item →
  get_item_update (null_to_missing nm) (null_to_missing pr) (null_to_missing descr)
  = Return item
  ∧ (∀ o t',
       get_db (update_item k item) t = (Return o, t') →
       t' !! k = Some (mkRow (name o) (description o) (price o) (created_at o))
       ∧ name o = match nm with Given (Some v) => v | _ => row_name r end
       ∧ description o
         = match descr with Given (Some v) => Some v | _ => row_description r end
       ∧ Some (price o)
         = match pr with Given (Some v) => sqlite_real v | _ => Some (row_price r) end)
  ∧ ((∀ v, pr = Given (Some v) → is_nan v = false) →
     ∃ o t', get_db (update_item k item) t = (Return o, t')).
Proof.
  intros Hk Hv. pose proof (table_lookup_int64 _ _ _ Hk) as Hin.
  pose proof (get_item_update_Return _ _ _ _ Hv) as Hitem.
  rewrite (update_item_found _ _ _ item Hk). split_and!.
  - by rewrite get_item_update_null.
  - intros o t' Hrun.
    destruct (updated_row item r) as [r'|] eqn:Hr; [|done].
    injection Hrun as <- <-.
    destruct (updated_row_Some _ _ _ Hr) as (Hn & Hd & Hp & Hc).
    rewrite Hitem in Hn, Hd, Hp; simpl in *.
    rewrite table_lookup_insert_eq by done.
    split_and!.
    + by destruct r'.
    + rewrite Hn. by destruct nm as [| |[v|]].
    + rewrite Hd. by destruct descr as [| |[v|]].
    + rewrite Hp. by destruct pr as [| |[v|]].
  - intros Hp.
    destruct (updated_row_storable item r) as [r' ->]; [|by eexists _, _].
    intros v Hv'. apply Hp. rewrite Hitem in Hv'; simpl in Hv'.
    by destruct pr as [| |[w|]]; simplify_eq/=.
Qed.

Lemma update_absent_and_null_alike_witness :
  t_demo !! 2 = Some ink
  ∧ get_item_update (Given (Some "Dye")) (Given None) (Given None)
    = Return (mkItemUpdate (Some "Dye") None None)
  ∧ get_item_update (Given (Some "Dye")) Missing Missing
    = Return (mkItemUpdate (Some "Dye") None None).
Proof.
  split; [reflexivity|]. split; [reflexivity|].
  exact (proj1 (update_absent_and_null_alike t_demo 2 ink
                  (Given (Some "Dye")) (Given None) (Given None)
                  (mkItemUpdate (Some "Dye") None None)
                  eq_refl eq_refl)).
Defined.

(** C1, as the specification has it, fails: called with the description
    supplied as null, the validation layer gives the update handler the
    request it gives when the description is not supplied at all, and the
    handler returns and stores item 2 with the description it had. *)
Lemma update_null_description_ignored :
  get_item_update Missing Missing (Given None)
  = Return (mkItemUpdate None None None)
  ∧ get_item_update Missing Missing Missing
    = Return (mkItemUpdate None None None)
  ∧ t_demo !! 2 = Some ink
  ∧ row_description ink = Some "blue"
  ∧ get_db (update_item 2 (mkItemUpdate None None None)) t_demo
    = (Return (load 2 ink), t_demo).
Proof.
  split_and!; [reflexivity..|]. apply pair_table_eq; vm_compute; reflexivity.
Qed.
End null_fields.

(** ** Creating *)

Section creating.
Implicit Types (t : Table) (k : Z) (r : Row).

Lemma offending_required {A} (a : Arg A) (f : string) :
  f ∈ offending f (required a) ↔ a = Missing ∨ a = Malformed.
Proof.
  destruct a as [| |v]; simpl.
  - rewrite list_elem_of_singleton. tauto.
  - rewrite list_elem_of_singleton. tauto.
  - split; [intros Hin; by apply elem_of_nil in Hin|].
    intros [?|?]; discriminate.
Qed.

Lemma offending_other {A} (f g : string) (v : option A) :
  f ≠ g → f ∈ offending g v → False.
Proof.
  intros Hne. destruct v; simpl.
  - by rewrite elem_of_nil.
  - by rewrite list_elem_of_singleton.
Qed.

(** C8, as the code has it: a create request whose name or price is
    missing or of the wrong type is answered with a validation error that
    names the field, and nothing is inserted; a name that is the empty
    string is text like any other: it passes validation, and when the store
    takes the row (a price that is not NaN, a key to give) the item is
    inserted with that name under a key that was free. *)
Theorem create_validation now pick nm pr descr t :
  (nm = Missing ∨ nm = Malformed ∨ pr = Missing ∨ pr = Malformed →
   ∃ fs, post_items now pick nm pr descr t
         = (Failure 422 (RequestValidationError fs), t)
         ∧ ("name" ∈ fs ↔ nm = Missing ∨ nm = Malformed)
         ∧ ("price" ∈ fs ↔ pr = Missing ∨ pr = Malformed))
  ∧ (∀ p, get_item_create (Given "") (Given p) Missing
          = Return (mkItemCreate "" None p))
  ∧ (∀ p q, sqlite_real p = Some q →
            rowid_free (new_rowid pick t) t = true →
            t !! new_rowid pick t = None
            ∧ post_items now pick (Given "") (Given p) Missing t
              = (Success 200 (mkItemResponse (new_rowid pick t) "" None q now),
                 <[new_rowid pick t := mkRow "" None q now]> t)).
Proof.
  split_and!.
  - intros Hbad.
    exists (offending "name" (required nm) ++ offending "price" (required pr)
            ++ offending "description" (with_default None (arg_map Some descr)))%list.
    split_and!.
    + unfold post_items, route, get_item_create.
      destruct Hbad as [->|[->|[->| ->]]]; simpl; try done; by destruct nm.
    + rewrite <- (offending_required nm "name"), !elem_of_app.
      split; [|by left].
      intros [Hin|[Hin|Hin]]; [done| |];
        by apply offending_other in Hin.
    + rewrite <- (offending_required pr "price"), !elem_of_app.
      split; [|by right; left].
      intros [Hin|[Hin|Hin]]; [|done|];
        by apply offending_other in Hin.
  - done.
  - intros p q Hq Hfree.
    rewrite (post_items_valid now pick (Given "") (Given p) Missing
               (mkItemCreate "" None p) t eq_refl).
    rewrite Hfree. unfold created_row; simpl. rewrite Hq; simpl.
    by apply rowid_free_spec in Hfree as [_ ?].
Qed.

Lemma create_validation_witness :
  (@Missing string = Missing ∨ @Missing string = Malformed
   ∨ Given 1.5%float = Missing ∨ Given 1.5%float = Malformed)
  ∧ ∃ fs, post_items 30 0 Missing (Given 1.5%float) (Given "red") t_demo
          = (Failure 422 (RequestValidationError fs), t_demo)
          ∧ ("name" ∈ fs ↔ @Missing string = Missing ∨ @Missing string = Malformed)
          ∧ ("price" ∈ fs ↔ Given 1.5%float = Missing ∨ Given 1.5%float = Malformed).
Proof.
  split; [left; reflexivity|].
  apply (proj1 (create_validation 30 0 Missing (Given 1.5%float) (Given "red") t_demo)).
  left; reflexivity.
Defined.

(** C8, as the specification has it, fails: a create request whose name
    is the empty string passes validation and the item is inserted. *)
Lemma create_empty_name_accepted :
  get_item_create (Given "") (Given 1.5%float) Missing
  = Return (mkItemCreate "" None 1.5%float)
  ∧ post_items 7 0 (Given "") (Given 1.5%float) Missing ∅
    = (Success 200 (mkItemResponse 1 "" None 1.5%float 7),
       <[1 := mkRow "" None 1.5%float 7]> ∅).
Proof. split; [reflexivity | run_route]. Qed.

(** C9, as the code has it: for every create request that passes
    validation, when the store takes the row (a price that is not NaN, a
    key to give) the create route answers 200, the status of a route
    declared without one, with the full inserted item: name and
    description as submitted, the price as the store holds it, the id the
    store gave (free until then) and the created_at of the insertion, and
    the table has grown by exactly that item.  The route answers with an
    item in no other case, and never with another status. *)
Theorem create_responds_with_item now pick nm pr descr item t :
  get_item_create nm pr descr = Return item →
  (∀ q, sqlite_real (create_price item) = Some q →
        rowid_free (new_rowid pick t) t = true →
        post_items now pick nm pr descr t
        = (Success 200
             (mkItemResponse (new_rowid pick t) (create_name item)
                (create_description item) q now),
           <[new_rowid pick t := mkRow (create_name item)
                                   (create_description item) q now]> t))
  ∧ (∀ st body t',
       post_items now pick nm pr descr t = (Success st body, t') →
       st = 200
       ∧ nm = Given (resp_name body)
       ∧ with_default None (arg_map Some descr) = Some (resp_description body)
       ∧ sqlite_real (create_price item) = Some (resp_price body)
       ∧ resp_created_at body = now
       ∧ t !! resp_id body = None
       ∧ t' !! resp_id body = Some (response_row body)
       ∧ ∀ j, j ≠ resp_id body → t' !! j = t !! j).
Proof.
  intros Hv. split.
  - intros q Hq Hfree. rewrite (post_items_valid _ _ _ _ _ _ _ Hv), Hfree.
    unfold created_row. by rewrite Hq.
  - intros st body t' Hpost.
    destruct (post_items_Success _ _ _ _ _ _ _ _ _ Hpost)
      as (item' & r & Hv' & Hr & Hfree & -> & -> & ->).
    assert (item' = item) as -> by congruence.
    destruct (get_item_create_Return _ _ _ _ Hv) as (Hn & Hp & Hd).
    apply rowid_free_spec in Hfree as [Hin Hnone].
    unfold created_row in Hr.
    destruct (sqlite_real (create_price item)) as [q|]; simpl in Hr; [|done].
    injection Hr as <-. simpl. split_and!; try done.
    + by rewrite table_lookup_insert_eq.
    + intros j Hj. by rewrite table_lookup_insert_ne.
Qed.

Lemma create_responds_with_item_witness :
  get_item_create (Given "Cap") (Given neg_zero) Missing
  = Return (mkItemCreate "Cap" None neg_zero)
  ∧ sqlite_real neg_zero = Some zero
  ∧ rowid_free (new_rowid 0 t_demo) t_demo = true
  ∧ post_items 30 0 (Given "Cap") (Given neg_zero) Missing t_demo
    = (Success 200 (mkItemResponse (new_rowid 0 t_demo) "Cap" None zero 30),
       <[new_rowid 0 t_demo := mkRow "Cap" None zero 30]> t_demo).
Proof.
  split; [reflexivity|]. split; [reflexivity|]. split; [reflexivity|].
  apply (proj1 (create_responds_with_item 30 0 (Given "Cap") (Given neg_zero)
                  Missing (mkItemCreate "Cap" None neg_zero) t_demo eq_refl));
    reflexivity.
Defined.

(** C9, as the specification has it, fails: the create route answers a
    valid request with status 200, not 201. *)
Lemma create_answers_200 :
  post_items 7 0 (Given "Pen") (Given 1.5%float) Missing ∅
  = (Success 200 (mkItemResponse 1 "Pen" None 1.5%float 7),
     <[1 := mkRow "Pen" None 1.5%float 7]> ∅)
  ∧ response_status (post_items 7 0 (Given "Pen") (Given 1.5%float) Missing ∅).1
    ≠ 201.
Proof. split; [run_route | by vm_compute]. Qed.
End creating.


(** ** Listing *)

Section listing.
Implicit Types (t : Table) (k j : Z) (r : Row) (x : ItemResponse).

Lemma get_items_run t : get_items t = (Success 200 (listing t), t).
Proof. reflexivity. Qed.

Lemma scan_Permutation t : scan t ≡ₚ map_to_list (proj1_sig t).
Proof. apply merge_sort_Permutation. Qed.

Lemma elem_of_scan t k r : (k, r) ∈ scan t ↔ t !! k = Some r.
Proof. rewrite scan_Permutation. apply elem_of_map_to_list. Qed.

Lemma response_row_load k r : response_row (from_attributes (load k r)) = r.
Proof. by destruct r. Qed.

Lemma response_inj k j r r' :
  from_attributes (load k r) = from_attributes (load j r') → k = j ∧ r = r'.
Proof. destruct r, r'; simpl. by intros [= -> -> -> -> ->]. Qed.

Lemma elem_of_listing t x :
  x ∈ listing t ↔ ∃ k r, t !! k = Some r ∧ x = from_attributes (load k r).
Proof.
  unfold listing. rewrite list_elem_of_fmap. split.
  - intros (o & -> & Ho). apply list_elem_of_fmap in Ho as ([k r] & -> & Hkr).
    apply elem_of_scan in Hkr. by exists k, r.
  - intros (k & r & Hk & ->). exists (load k r). split; [done|].
    apply list_elem_of_fmap. exists (k, r). split; [done|].
    by apply elem_of_scan.
Qed.

Lemma NoDup_listing t : NoDup (listing t).
Proof.
  unfold listing. rewrite <- list_fmap_compose.
  apply NoDup_fmap_2_strong.
  - intros [k r] [j r'] _ _ Heq; simpl in Heq.
    by destruct (response_inj _ _ _ _ Heq) as [-> ->].
  - rewrite scan_Permutation. apply NoDup_map_to_list.
Qed.

Lemma length_listing t : length (listing t) = size t.
Proof.
  unfold listing. rewrite !length_fmap, scan_Permutation.
  apply length_map_to_list.
Qed.

(** X1: the list route answers 200 with every stored item exactly once and
    nothing else, as many entries as the table has rows (none on an empty
    table), and leaves the table as it was. *)
Theorem list_all_items t :
  ∃ body,
    get_items t = (Success 200 body, t)
    ∧ NoDup body
    ∧ length body = size t
    ∧ (t = ∅ → body = [])
    ∧ ∀ x, x ∈ body ↔ ∃ k r, t !! k = Some r ∧ x = from_attributes (load k r).
Proof.
  exists (listing t). split_and!.
  - apply get_items_run.
  - apply NoDup_listing.
  - apply length_listing.
  - intros ->. by vm_compute.
  - apply elem_of_listing.
Qed.

(** X2: whenever the create route answers with an item, the list route
    afterwards gives that item together with exactly the items it gave
    before; the created item was not among them. *)
Theorem list_after_create now pick nm pr descr t st created t' :
  post_items now pick nm pr descr t = (Success st created, t') →
  ∃ before after,
    get_items t = (Success 200 before, t)
    ∧ get_items t' = (Success 200 after, t')
    ∧ (created ∉ before)
    ∧ length after = S (length before)
    ∧ ∀ x, x ∈ after ↔ x = created ∨ x ∈ before.
Proof.
  intros Hpost.
  destruct (post_items_Success _ _ _ _ _ _ _ _ _ Hpost)
    as (item & r & _ & _ & Hfree & _ & -> & ->).
  apply rowid_free_spec in Hfree as [Hin Hfresh].
  eexists (listing t), _. split_and!.
  - apply get_items_run.
  - apply get_items_run.
  - rewrite elem_of_listing. intros (k & r' & Hk & Heq).
    apply response_inj in Heq as [<- _]. congruence.
  - rewrite !length_listing. by apply table_size_insert_None.
  - intros x. rewrite !elem_of_listing. split.
    + intros (k & r' & Hk & ->).
      destruct (decide (new_rowid pick t = k)) as [<-|Hne].
      * rewrite table_lookup_insert_eq in Hk by done.
        injection Hk as <-. by left.
      * rewrite table_lookup_insert_ne in Hk by done. right. by exists k, r'.
    + intros [->|(k & r' & Hk & ->)].
      * eexists _, _. split; [by apply table_lookup_insert_eq|done].
      * exists k, r'. split; [|done].
        rewrite table_lookup_insert_ne; [done|]. intros <-. congruence.
Qed.

Lemma list_after_create_witness :
  post_items 30 0 (Given "Cap") (Given 0.5%float) Missing t_demo
  = (Success 200 (mkItemResponse 3 "Cap" None 0.5%float 30),
     <[3 := mkRow "Cap" None 0.5%float 30]> t_demo)
  ∧ ∃ before after,
      get_items t_demo = (Success 200 before, t_demo)
      ∧ get_items (<[3 := mkRow "Cap" None 0.5%float 30]> t_demo)
        = (Success 200 after, <[3 := mkRow "Cap" None 0.5%float 30]> t_demo)
      ∧ (mkItemResponse 3 "Cap" None 0.5%float 30 ∉ before)
      ∧ length after = S (length before)
      ∧ ∀ x, x ∈ after ↔ x = mkItemResponse 3 "Cap" None 0.5%float 30 ∨ x ∈ before.
Proof.
  split; [run_route|].
  apply (list_after_create 30 0 (Given "Cap") (Given 0.5%float) Missing t_demo 200).
  run_route.
Defined.

(** X3: after the delete of a stored item, the list route gives exactly the
    items it gave before without the deleted one, one entry fewer. *)
Theorem list_after_delete t k r :
  t !! k = Some r →
  ∃ deleted t' before after,
    delete_item_route k t = (Success 200 deleted, t')
    ∧ get_items t = (Success 200 before, t)
    ∧ get_items t' = (Success 200 after, t')
    ∧ deleted ∈ before
    ∧ length before = S (length after)
    ∧ ∀ x, x ∈ after ↔ x ∈ before ∧ x ≠ deleted.
Proof.
  intros Hk. eexists _, (delete k t), (listing t), _. split_and!.
  - by apply delete_item_route_found.
  - apply get_items_run.
  - apply get_items_run.
  - apply elem_of_listing. by exists k, r.
  - rewrite !length_listing. by eapply table_size_delete_Some.
  - intros x. rewrite !elem_of_listing. split.
    + intros (j & r' & Hj & ->).
      apply table_lookup_delete_Some in Hj as [Hne Hj]. split; [by exists j, r'|].
      intros Heq. by apply response_inj in Heq as [-> _].
    + intros [(j & r' & Hj & ->) Hne]. exists j, r'. split; [|done].
      apply table_lookup_delete_Some. split; [|done].
      intros <-. apply Hne. congruence.
Qed.

Lemma list_after_delete_witness :
  t_demo !! 1 = Some pen
  ∧ ∃ deleted t' before after,
      delete_item_route 1 t_demo = (Success 200 deleted, t')
      ∧ get_items t_demo = (Success 200 before, t_demo)
      ∧ get_items t' = (Success 200 after, t')
      ∧ deleted ∈ before
      ∧ length before = S (length after)
      ∧ ∀ x, x ∈ after ↔ x ∈ before ∧ x ≠ deleted.
Proof.
  split; [reflexivity|]. apply (list_after_delete t_demo 1 pen). reflexivity.
Defined.

#[local] Instance by_rowid_total : Total by_rowid.
Proof. intros a b. unfold by_rowid. lia. Qed.

#[local] Instance by_rowid_trans : Transitive by_rowid.
Proof. intros a b c. unfold by_rowid. lia. Qed.



End listing.


(** ** Requests one after another *)

Section sequences.
Implicit Types (t : Table) (k j : Z) (r : Row).

(** X4: whenever the create route has answered with an item, deleting that
    item answers with the same item and gives back the table as it was
    before the create. *)
Theorem create_then_delete_restores now pick nm pr descr t st body t' :
  post_items now pick nm pr descr t = (Success st body, t') →
  delete_item_route (resp_id body) t' = (Success 200 body, t).
Proof.
  intros Hpost.
  destruct (post_items_Success _ _ _ _ _ _ _ _ _ Hpost)
    as (item & r & _ & _ & Hfree & _ & -> & ->).
  apply rowid_free_spec in Hfree as [Hin Hfresh]. simpl.
  erewrite delete_item_route_found by (by apply table_lookup_insert_eq).
  by rewrite table_delete_insert_id.
Qed.

Lemma create_then_delete_restores_witness :
  post_items 30 0 (Given "Cap") (Given 0.5%float) (Given "red") t_demo
  = (Success 200 (mkItemResponse 3 "Cap" (Some "red") 0.5%float 30),
     <[3 := mkRow "Cap" (Some "red") 0.5%float 30]> t_demo)
  ∧ delete_item_route 3 (<[3 := mkRow "Cap" (Some "red") 0.5%float 30]> t_demo)
    = (Success 200 (mkItemResponse 3 "Cap" (Some "red") 0.5%float 30), t_demo).
Proof.
  split; [run_route|].
  apply (create_then_delete_restores 30 0 (Given "Cap") (Given 0.5%float)
           (Given "red") t_demo 200
           (mkItemResponse 3 "Cap" (Some "red") 0.5%float 30)).
  run_route.
Defined.

(** X5: when two create requests in a row are both answered with an item,
    the two items have different ids, and both are read back afterwards as
    they were answered. *)
Theorem create_twice now1 pick1 nm1 pr1 descr1 now2 pick2 nm2 pr2 descr2
    t st1 b1 t1 st2 b2 t2 :
  post_items now1 pick1 nm1 pr1 descr1 t = (Success st1 b1, t1) →
  post_items now2 pick2 nm2 pr2 descr2 t1 = (Success st2 b2, t2) →
  resp_id b1 ≠ resp_id b2
  ∧ get_item (resp_id b1) t2 = (Success 200 b1, t2)
  ∧ get_item (resp_id b2) t2 = (Success 200 b2, t2).
Proof.
  intros Hpost1 Hpost2.
  destruct (post_items_Success _ _ _ _ _ _ _ _ _ Hpost1)
    as (item1 & r1 & _ & _ & Hfree1 & _ & -> & ->).
  destruct (post_items_Success _ _ _ _ _ _ _ _ _ Hpost2)
    as (item2 & r2 & _ & _ & Hfree2 & _ & -> & ->).
  apply rowid_free_spec in Hfree1 as [Hin1 Hfresh1].
  apply rowid_free_spec in Hfree2 as [Hin2 Hfresh2]. simpl.
  set (k1 := new_rowid pick1 t) in *.
  set (k2 := new_rowid pick2 (<[k1 := r1]> t)) in *.
  assert (k1 ≠ k2) as Hne.
  { intros Heq. rewrite <- Heq in Hfresh2.
    by rewrite table_lookup_insert_eq in Hfresh2. }
  split_and!; [done| |].
  - apply get_item_found. rewrite table_lookup_insert_ne by done.
    by apply table_lookup_insert_eq.
  - apply get_item_found. by apply table_lookup_insert_eq.
Qed.

Lemma create_twice_witness :
  post_items 30 0 (Given "Cap") (Given 0.5%float) Missing t_demo
  = (Success 200 (mkItemResponse 3 "Cap" None 0.5%float 30),
     <[3 := mkRow "Cap" None 0.5%float 30]> t_demo)
  ∧ post_items 31 0 (Given "Cap") (Given 0.5%float) Missing
      (<[3 := mkRow "Cap" None 0.5%float 30]> t_demo)
    = (Success 200 (mkItemResponse 4 "Cap" None 0.5%float 31),
       <[4 := mkRow "Cap" None 0.5%float 31]>
         (<[3 := mkRow "Cap" None 0.5%float 30]> t_demo))
  ∧ 3 ≠ 4
  ∧ get_item 3 (<[4 := mkRow "Cap" None 0.5%float 31]>
                  (<[3 := mkRow "Cap" None 0.5%float 30]> t_demo))
    = (Success 200 (mkItemResponse 3 "Cap" None 0.5%float 30),
       <[4 := mkRow "Cap" None 0.5%float 31]>
         (<[3 := mkRow "Cap" None 0.5%float 30]> t_demo))
  ∧ get_item 4 (<[4 := mkRow "Cap" None 0.5%float 31]>
                  (<[3 := mkRow "Cap" None 0.5%float 30]> t_demo))
    = (Success 200 (mkItemResponse 4 "Cap" None 0.5%float 31),
       <[4 := mkRow "Cap" None 0.5%float 31]>
         (<[3 := mkRow "Cap" None 0.5%float 30]> t_demo)).
Proof.
  split; [run_route|]. split; [run_route|].
  apply (create_twice 30 0 (Given "Cap") (Given 0.5%float) Missing
           31 0 (Given "Cap") (Given 0.5%float) Missing
           t_demo 200 (mkItemResponse 3 "Cap" None 0.5%float 30)
           (<[3 := mkRow "Cap" None 0.5%float 30]> t_demo)
           200 (mkItemResponse 4 "Cap" None 0.5%float 31));
    run_route.
Defined.

Lemma updated_row_merge later earlier r r1 r2 :
  updated_row earlier r = Some r1 →
  updated_row later r1 = Some r2 →
  updated_row (merge_update later earlier) r = Some r2.
Proof.
  unfold updated_row.
  destruct later as [[n2|] [d2|] [p2|]], earlier as [[n1|] [d1|] [p1|]]; simpl;
    try destruct (sqlite_real p1) as [q1|]; simpl; try done;
    try destruct (sqlite_real p2) as [q2|]; simpl; try done;
    intros [= <-]; simpl; by intros [= <-].
Qed.

(** X6: sending the same update request a second time changes nothing more:
    the answer and the table are those of the first time. *)
Theorem update_twice_same k nm pr descr t :
  put_item k nm pr descr (put_item k nm pr descr t).2
  = put_item k nm pr descr t.
Proof.
  destruct (get_item_update nm pr descr) as [item|e] eqn:Hv.
  - destruct (t !! k) as [r|] eqn:Hk.
    + pose proof (table_lookup_int64 _ _ _ Hk) as Hin.
      rewrite (put_item_found _ _ _ _ _ _ _ Hv Hk).
      destruct (updated_row item r) as [r'|] eqn:Hr; simpl.
      * rewrite (put_item_found _ _ _ _ _ _ r' Hv)
          by (by apply table_lookup_insert_eq).
        by rewrite (updated_row_twice _ _ _ Hr), table_insert_insert_eq.
      * by rewrite (put_item_found _ _ _ _ _ _ _ Hv Hk), Hr.
    + rewrite (put_item_absent _ _ _ _ _ _ Hv Hk); simpl.
      by apply (put_item_absent _ _ _ item).
  - by rewrite !(put_item_invalid _ _ _ _ _ _ Hv).
Qed.

(** X7: two updates of one id in a row, neither with a price that is NaN,
    are one update with the two requests merged, the later request winning
    on the fields it sets; on an id that is not stored both sides raise the
    same error and leave the table. *)
Theorem update_then_update k earlier later t :
  storable earlier →
  storable later →
  get_db (update_item k later) (get_db (update_item k earlier) t).2
  = get_db (update_item k (merge_update later earlier)) t.
Proof.
  intros Hs1 Hs2. destruct (t !! k) as [r|] eqn:Hk.
  - pose proof (table_lookup_int64 _ _ _ Hk) as Hin.
    rewrite (update_item_found _ _ _ earlier Hk).
    destruct (updated_row_storable earlier r Hs1) as [r1 Hr1].
    rewrite Hr1; simpl.
    rewrite (update_item_found _ _ r1 later)
      by (by apply table_lookup_insert_eq).
    destruct (updated_row_storable later r1 Hs2) as [r2 Hr2].
    rewrite Hr2, (update_item_found _ _ _ (merge_update later earlier) Hk).
    by rewrite (updated_row_merge _ _ _ _ _ Hr1 Hr2), table_insert_insert_eq.
  - rewrite (update_item_absent _ _ earlier Hk); simpl.
    by rewrite !(update_item_absent _ _ _ Hk).
Qed.

Lemma update_then_update_witness :
  storable (mkItemUpdate (Some "Dye") None (Some neg_zero))
  ∧ storable (mkItemUpdate None (Some "black") None)
  ∧ get_db (update_item 2 (mkItemUpdate None (Some "black") None))
      (get_db (update_item 2 (mkItemUpdate (Some "Dye") None (Some neg_zero)))
         t_demo).2
    = get_db (update_item 2 (mkItemUpdate (Some "Dye") (Some "black")
                               (Some neg_zero))) t_demo.
Proof.
  assert (storable (mkItemUpdate (Some "Dye") None (Some neg_zero))) as H1.
  { intros v [= <-]. reflexivity. }
  assert (storable (mkItemUpdate None (Some "black") None)) as H2.
  { intros v Hv. discriminate Hv. }
  split; [exact H1|]. split; [exact H2|].
  exact (update_then_update 2 _ _ t_demo H1 H2).
Defined.

(** X8: when the update route answers with an item, the status is 200, the
    item carries the id of the request, and a read of that id afterwards
    answers with the same item. *)
Theorem read_after_update k nm pr descr t st body t' :
  put_item k nm pr descr t = (Success st body, t') →
  st = 200
  ∧ resp_id body = k
  ∧ get_item k t' = (Success 200 body, t').
Proof.
  intros Hput.
  destruct (put_item_outcome k nm pr descr t)
    as [(item & r & r' & _ & Hk & _ & Heq)|(st' & e & Heq)];
    rewrite Heq in Hput; [|done].
  injection Hput as <- <- <-. split_and!; [done..|].
  apply get_item_found, table_lookup_insert_eq.
  by eapply table_lookup_int64.
Qed.

Lemma read_after_update_witness :
  put_item 2 (Given (Some "Dye")) Missing (Given None) t_demo
  = (Success 200 (mkItemResponse 2 "Dye" (Some "blue") 3.25%float 20),
     <[2 := mkRow "Dye" (Some "blue") 3.25%float 20]> t_demo)
  ∧ 200 = 200
  ∧ resp_id (mkItemResponse 2 "Dye" (Some "blue") 3.25%float 20) = 2
  ∧ get_item 2 (<[2 := mkRow "Dye" (Some "blue") 3.25%float 20]> t_demo)
    = (Success 200 (mkItemResponse 2 "Dye" (Some "blue") 3.25%float 20),
       <[2 := mkRow "Dye" (Some "blue") 3.25%float 20]> t_demo).
Proof.
  split; [run_route|].
  apply (read_after_update 2 (Given (Some "Dye")) Missing (Given None) t_demo).
  run_route.
Defined.
End sequences.

(** ** What the routes keep *)

Section keeping.
Implicit Types (t : Table) (k j : Z) (r : Row).





Lemma offending_with_default {A} (d : A) (a : Arg A) (f : string) :
  f ∈ offending f (with_default d a) ↔ a = Malformed.
Proof.
  destruct a as [| |v]; simpl; rewrite ?list_elem_of_singleton, ?elem_of_nil;
    split; try done.
Qed.

(** X10: an update request with a parameter of the wrong type is answered
    422 with a validation error that names exactly the parameters of the
    wrong type (a parameter that is missing is never named), whether the id
    is stored or not, and the table is left as it was. *)
Theorem update_malformed_rejected k nm pr descr t :
  nm = Malformed ∨ pr = Malformed ∨ descr = Malformed →
  ∃ fs,
    put_item k nm pr descr t = (Failure 422 (RequestValidationError fs), t)
    ∧ ("name" ∈ fs ↔ nm = Malformed)
    ∧ ("price" ∈ fs ↔ pr = Malformed)
    ∧ ("description" ∈ fs ↔ descr = Malformed).
Proof.
  intros Hbad.
  exists (offending "name" (with_default None nm)
          ++ offending "price" (with_default None pr)
          ++ offending "description" (with_default None descr))%list.
  split_and!.
  - unfold put_item, route, get_item_update.
    destruct Hbad as [->|[->| ->]]; simpl; try done;
      destruct nm as [| |?]; simpl; try done;
      destruct pr as [| |?]; simpl; done.
  - rewrite <- (offending_with_default None nm "name"), !elem_of_app.
    split; [|by left].
    intros [Hin|[Hin|Hin]]; [done| |]; by apply offending_other in Hin.
  - rewrite <- (offending_with_default None pr "price"), !elem_of_app.
    split; [|by right; left].
    intros [Hin|[Hin|Hin]]; [|done|]; by apply offending_other in Hin.
  - rewrite <- (offending_with_default None descr "description"), !elem_of_app.
    split; [|by right; right].
    intros [Hin|[Hin|Hin]]; [| |done]; by apply offending_other in Hin.
Qed.

Lemma update_malformed_rejected_witness :
  (@Missing (option string) = Malformed ∨ @Malformed (option float) = Malformed
   ∨ Given (Some "red") = Malformed)
  ∧ t_demo !! 5 = None
  ∧ ∃ fs,
      put_item 5 Missing Malformed (Given (Some "red")) t_demo
      = (Failure 422 (RequestValidationError fs), t_demo)
      ∧ ("name" ∈ fs ↔ @Missing (option string) = Malformed)
      ∧ ("price" ∈ fs ↔ @Malformed (option float) = Malformed)
      ∧ ("description" ∈ fs ↔ Given (Some "red") = Malformed).
Proof.
  split; [right; left; reflexivity|]. split; [reflexivity|].
  apply (update_malformed_rejected 5 Missing Malformed (Given (Some "red")) t_demo).
  right; left; reflexivity.
Defined.

(** X11: the create route does all or nothing: either it answers 200 with
    an item and the table has grown by exactly that item, under an id that
    was free, or it answers 422 with a validation error, or it answers 500
    because the store did not take the row; in the last two cases the table
    is as it was.  It never answers anything else. *)
Theorem create_all_or_nothing now pick nm pr descr t :
  (∃ body,
     post_items now pick nm pr descr t
     = (Success 200 body, <[resp_id body := response_row body]> t)
     ∧ t !! resp_id body = None
     ∧ size (<[resp_id body := response_row body]> t) = S (size t))
  ∨ (∃ fs,
       post_items now pick nm pr descr t
       = (Failure 422 (RequestValidationError fs), t)
       ∧ fs ≠ [])
  ∨ (∃ e,
       post_items now pick nm pr descr t = (Failure 500 e, t)
       ∧ (e = IntegrityError ∨ e = OperationalError)).
Proof.
  destruct (get_item_create nm pr descr) as [item|e] eqn:Hv.
  - rewrite (post_items_valid now pick _ _ _ _ t Hv).
    destruct (rowid_free (new_rowid pick t) t) eqn:Hfree.
    + destruct (created_row now item) as [r|] eqn:Hr.
      * left. exists (from_attributes (load (new_rowid pick t) r)).
        apply rowid_free_spec in Hfree as [Hin Hfresh]. simpl.
        rewrite response_row_load. split_and!; [done..|].
        by apply table_size_insert_None.
      * right; right. exists IntegrityError. auto.
    + right; right. exists OperationalError. auto.
  - right; left. destruct (get_item_create_Raise _ _ _ _ Hv) as (fs & -> & Hfs).
    exists fs. split; [|done]. by apply post_items_invalid.
Qed.

(** X14: a create request that passes validation with a price that is not
    NaN, on a table whose largest key is below the largest 64-bit integer,
    is always answered 200 with an item. *)
Theorem create_succeeds now pick nm pr descr item t :
  get_item_create nm pr descr = Return item →
  is_nan (create_price item) = false →
  (∀ m, max_rowid t = Some m → m < max_int64) →
  ∃ body t', post_items now pick nm pr descr t = (Success 200 body, t').
Proof.
  intros Hv Hp Hroom.
  rewrite (post_items_valid _ _ _ _ _ _ _ Hv), (new_rowid_room _ _ Hroom).
  unfold created_row. destruct (sqlite_real_is_Some _ Hp) as [q ->]; simpl.
  by eexists _, _.
Qed.

Lemma create_succeeds_witness :
  get_item_create (Given "Cap") (Given 0.5%float) Missing
  = Return (mkItemCreate "Cap" None 0.5%float)
  ∧ is_nan 0.5%float = false
  ∧ max_rowid t_demo = Some 2
  ∧ ∃ body t',
      post_items 30 0 (Given "Cap") (Given 0.5%float) Missing t_demo
      = (Success 200 body, t').
Proof.
  split; [reflexivity|]. split; [reflexivity|]. split; [reflexivity|].
  apply (create_succeeds 30 0 (Given "Cap") (Given 0.5%float) Missing
           (mkItemCreate "Cap" None 0.5%float) t_demo);
    [reflexivity|reflexivity|].
  intros m Hm. vm_compute in Hm. injection Hm as <-. reflexivity.
Defined.

Lemma get_item_depends_on_row j t1 t2 :
  t1 !! j = t2 !! j → (get_item j t1).1 = (get_item j t2).1.
Proof.
  intros Heq. destruct (t2 !! j) as [r|] eqn:Hj.
  - by rewrite (get_item_found _ _ _ Heq), (get_item_found _ _ _ Hj).
  - by rewrite (get_item_absent _ _ Heq), (get_item_absent _ _ Hj).
Qed.

(** X12: an update or a delete on one id, whatever its outcome, does not
    change what a read of another id answers. *)
Theorem other_items_untouched k j nm pr descr t :
  j ≠ k →
  (get_item j (put_item k nm pr descr t).2).1 = (get_item j t).1
  ∧ (get_item j (delete_item_route k t).2).1 = (get_item j t).1.
Proof.
  intros Hne. split; apply get_item_depends_on_row.
  - destruct (put_item_outcome k nm pr descr t)
      as [(item & r & r' & _ & _ & _ & ->)|(st & e & ->)]; [|done].
    simpl. by rewrite table_lookup_insert_ne.
  - destruct (t !! k) as [r|] eqn:Hk.
    + rewrite (delete_item_route_found _ _ _ Hk); simpl.
      by rewrite table_lookup_delete_ne.
    + by rewrite (delete_item_route_absent _ _ Hk).
Qed.

Lemma other_items_untouched_witness :
  1 ≠ 2
  ∧ (get_item 1 (put_item 2 (Given (Some "Dye")) Missing Missing t_demo).2).1
    = (get_item 1 t_demo).1
  ∧ (get_item 1 (delete_item_route 2 t_demo).2).1 = (get_item 1 t_demo).1.
Proof.
  split; [lia|].
  apply (other_items_untouched 2 1 (Given (Some "Dye")) Missing Missing t_demo).
  lia.
Defined.
End keeping.
